(** * firstdubai: the contact-form backend and its connection supervisor

    A shallow embedding of [config/db.js] (the retry loop [dbConnect]) and of
    the parts of the three [server.js] variants that talk to the persistent
    store: the start-up connection, and the form-intake route
    [POST /api/send-whatsapp].

    JavaScript's [async] functions are modelled as resumptions: a process
    runs synchronously until it awaits a promise of the outside world, and is
    resumed with the way that promise settled.  The same process can then be
    - run to completion against a script of settlements ([run]), which is
      how the supervisor is studied on its own, and
    - interleaved with other tasks by an event loop ([deliver]), which is how
      the server is studied. *)

From Stdlib Require Import List ZArith Lia Bool String Arith.
Import ListNotations.
Local Open Scope string_scope.

(** ** Values that cross the process boundary *)

(** A thrown value; the code only ever reads [error.message]. *)
Record error := Error { message : string }.

(** [req.body] after [const { name, email, phone, message } = req.body]. *)
Module Body.
Record t := Make { name : string; email : string; phone : string; message : string }.
End Body.

(** A cell of a spreadsheet row; [Now] is [new Date().toLocaleString()]. *)
Inductive cell :=
| Cell (s : string)
| Now.

(** The options object given to [mongoose.connect]. *)
Inductive connect_options :=
| dbName (s : string)
| serverSelectionTimeoutMS (ms : Z).

(** Promises of the outside world that the code awaits. *)
Inductive call :=
| mongoose_connect (env_var : string) (opts : connect_options)
| user_save (doc : Body.t)
| sheets_values_get (range : string)
| sheets_values_update (range : string) (values : list (list string))
| sheets_values_append (range : string) (row : list cell)
| client_sendMessage (chatId text : string).

(** What a settled promise carries. *)
Inductive value :=
| undefined
| response (data_values : option (list (list string))).

Inductive reply :=
| Fulfilled (v : value)
| Rejected (e : error).

(** ** Synchronous effects *)

(** Lines written to the console.  The templated lines of [dbConnect] keep
    their holes as arguments:
    - [connected_successfully]: "MongoDB connected successfully";
    - [attempt_failed attempt msg]:
      "MongoDB connection attempt ${attempt} failed: ${error.message}";
    - [max_retry_reached]: "Max retry attempts reached. Exiting...";
    - [retrying_in ms]: "Retrying in ${retryInterval / 1000} seconds...",
      with [ms] the undivided [retryInterval].
    The others are a fixed text, alone ([text]), followed by an error
    ([text_with]) or by a string ([text_and]); [qr_code qr] is what
    [qrcode.generate(qr, { small: true })] draws. *)
Inductive line :=
| connected_successfully
| attempt_failed (attempt : nat) (msg : string)
| max_retry_reached
| retrying_in (ms : Z)
| text (s : string)
| text_with (s : string) (e : error)
| text_and (s : string) (arg : string)
| qr_code (qr : string).

(** The JSON bodies the route answers with. *)
Inductive json :=
| success_true (msg : string)
| success_false (err : string) (details : option error).

Inductive output :=
| console_log (l : line)
| console_error (l : line)
| res_json (status : Z) (body : json).

(** ** Processes *)

(** A process is what remains to be executed of an [async] function.
    [OutOfFuel] is the leaf of a loop whose unrolling budget ran out; it is
    shown unreachable for the loops of this development. *)
Inductive Proc (A : Type) : Type :=
| Ret (a : A)
| Throw (e : error)
| Exit (code : Z)
| Do (o : output) (k : Proc A)
| Await (c : call) (k : reply -> Proc A)
| Sleep (ms : Z) (k : Proc A)
| OutOfFuel.

Arguments Ret {A} a.
Arguments Throw {A} e.
Arguments Exit {A} code.
Arguments Do {A} o k.
Arguments Await {A} c k.
Arguments Sleep {A} ms k.
Arguments OutOfFuel {A}.

Fixpoint bind {A B : Type} (p : Proc A) (f : A -> Proc B) : Proc B :=
  match p with
  | Ret a => f a
  | Throw e => Throw e
  | Exit code => Exit code
  | Do o k => Do o (bind k f)
  | Await c k => Await c (fun r => bind (k r) f)
  | Sleep ms k => Sleep ms (bind k f)
  | OutOfFuel => OutOfFuel
  end.

(** [try { p } catch (error) { h error }] *)
Fixpoint try_catch {A : Type} (p : Proc A) (h : error -> Proc A) : Proc A :=
  match p with
  | Ret a => Ret a
  | Throw e => h e
  | Exit code => Exit code
  | Do o k => Do o (try_catch k h)
  | Await c k => Await c (fun r => try_catch (k r) h)
  | Sleep ms k => Sleep ms (try_catch k h)
  | OutOfFuel => OutOfFuel
  end.

Declare Scope proc_scope.
Delimit Scope proc_scope with proc.
Notation "x <- p ;; q" := (bind p (fun x => q))
  (at level 61, p at next level, right associativity) : proc_scope.
Notation "p ;; q" := (bind p (fun _ => q))
  (at level 61, right associativity) : proc_scope.
Local Open Scope proc_scope.

(** [await c]: a rejection is rethrown at the point of the [await]. *)
Definition await (c : call) : Proc value :=
  Await c (fun r => match r with
                    | Fulfilled v => Ret v
                    | Rejected e => Throw e
                    end).

Definition log (l : line) : Proc unit := Do (console_log l) (Ret tt).
Definition log_error (l : line) : Proc unit := Do (console_error l) (Ret tt).
Definition process_exit {A : Type} (code : Z) : Proc A := Exit code.

(** [await new Promise((resolve) => setTimeout(resolve, ms))] *)
Definition setTimeout (ms : Z) : Proc unit := Sleep ms (Ret tt).

(** ** config/db.js *)

(** How an iteration of a [for] loop ends. *)
Inductive completion :=
| Break
| Normal.

Section Supervisor.

(** [const maxRetries = 5; const retryInterval = 2000;] are constants of
    [dbConnect]; the loop is stated over any pair of them. *)
Variable maxRetries : nat.
Variable retryInterval : Z.

(** One iteration of the loop body, for the current value of [attempt]. *)
Definition dbConnect_iteration (attempt : nat) : Proc completion :=
  try_catch
    (_ <- await (mongoose_connect "MONGO_URL" (dbName "saudi"));;
     log connected_successfully;;
     Ret Break)
    (fun error =>
       log_error (attempt_failed attempt (message error));;
       (if (attempt =? maxRetries)%nat
        then log_error max_retry_reached;; process_exit 1
        else Ret tt);;
       log (retrying_in retryInterval);;
       setTimeout retryInterval;;
       Ret Normal).

(** [for (let attempt = 1; attempt <= maxRetries; attempt++) { ... }],
    entered with the loop variable at [attempt]. *)
Fixpoint dbConnect_loop (fuel : nat) (attempt : nat) : Proc unit :=
  match fuel with
  | O => OutOfFuel
  | S fuel' =>
      if (attempt <=? maxRetries)%nat
      then c <- dbConnect_iteration attempt;;
           match c with
           | Break => Ret tt
           | Normal => dbConnect_loop fuel' (S attempt)
           end
      else Ret tt
  end.

Definition dbConnect_with : Proc unit := dbConnect_loop (S maxRetries) 1.

End Supervisor.

Definition dbConnect : Proc unit := dbConnect_with 5 2000.

(** ** Running a process against the outside world *)

(** What an observer of one task sees, in order. *)
Inductive event :=
| Called (c : call) (r : reply)
| Slept (ms : Z)
| Out (o : output).

(** How a task ends: its promise resolves or rejects, or the whole process
    is gone. *)
Inductive outcome (A : Type) :=
| Resolved (a : A)
| Threw (e : error)
| Exited (code : Z)
| Diverged.

Arguments Resolved {A} a.
Arguments Threw {A} e.
Arguments Exited {A} code.
Arguments Diverged {A}.

(** The outside world is a script: [world i] is how the [i]-th awaited call
    (counted from 0) settles.  Timers always fire. *)
Definition world := nat -> reply.

Fixpoint run {A : Type} (p : Proc A) (w : world) (i : nat) : list event * outcome A :=
  match p with
  | Ret a => ([], Resolved a)
  | Throw e => ([], Threw e)
  | Exit code => ([], Exited code)
  | Do o k => let (t, r) := run k w i in (Out o :: t, r)
  | Await c k => let (t, r) := run (k (w i)) w (S i) in (Called c (w i) :: t, r)
  | Sleep ms k => let (t, r) := run k w i in (Slept ms :: t, r)
  | OutOfFuel => ([], Diverged)
  end.

Definition trace_of {A : Type} (p : Proc A) (w : world) : list event := fst (run p w 0).
Definition outcome_of {A : Type} (p : Proc A) (w : world) : outcome A := snd (run p w 0).

(** ** Observations on a trace *)

Definition is_connect (e : event) : bool :=
  match e with
  | Called (mongoose_connect _ _) _ => true
  | _ => false
  end.

(** The number of times [mongoose.connect] was called. *)
Definition attempts_made (t : list event) : nat := List.length (filter is_connect t).

(** How each call of [mongoose.connect] settled, in order. *)
Fixpoint attempt_outcomes (t : list event) : list reply :=
  match t with
  | [] => []
  | Called (mongoose_connect _ _) r :: t' => r :: attempt_outcomes t'
  | _ :: t' => attempt_outcomes t'
  end.

(** The (attempt number, message) pairs of the "attempt ... failed" lines. *)
Fixpoint logged_failures (t : list event) : list (nat * string) :=
  match t with
  | [] => []
  | Out (console_error (attempt_failed a m)) :: t' => (a, m) :: logged_failures t'
  | _ :: t' => logged_failures t'
  end.

(** What was printed and answered, in order. *)
Fixpoint console (t : list event) : list output :=
  match t with
  | [] => []
  | Out o :: t' => o :: console t'
  | _ :: t' => console t'
  end.

(** The timer delays, in order. *)
Fixpoint delays (t : list event) : list Z :=
  match t with
  | [] => []
  | Slept ms :: t' => ms :: delays t'
  | _ :: t' => delays t'
  end.

(** The timer delays up to the next call of [mongoose.connect]. *)
Fixpoint delays_before_next_attempt (t : list event) : list Z :=
  match t with
  | [] => []
  | Called (mongoose_connect _ _) _ :: _ => []
  | Slept ms :: t' => ms :: delays_before_next_attempt t'
  | _ :: t' => delays_before_next_attempt t'
  end.

(** For each attempt, how it settled and the delays that follow it before
    the next attempt (or the end of the trace). *)
Fixpoint attempt_windows (t : list event) : list (reply * list Z) :=
  match t with
  | [] => []
  | Called (mongoose_connect _ _) r :: t' =>
      (r, delays_before_next_attempt t') :: attempt_windows t'
  | _ :: t' => attempt_windows t'
  end.

Definition is_ready_signal (e : event) : bool :=
  match e with
  | Out (console_log connected_successfully) => true
  | _ => false
  end.

Definition is_fatal_signal (e : event) : bool :=
  match e with
  | Out (console_error max_retry_reached) => true
  | _ => false
  end.

(** Occurrences of the line announcing readiness. *)
Definition ready_signals (t : list event) : nat :=
  List.length (filter is_ready_signal t).

(** Occurrences of the line announcing exhaustion. *)
Definition fatal_signals (t : list event) : nat :=
  List.length (filter is_fatal_signal t).

Definition is_rejected (r : reply) : bool :=
  match r with
  | Rejected _ => true
  | Fulfilled _ => false
  end.

Definition is_fulfilled (r : reply) : bool := negb (is_rejected r).

(** The failures among [rs], numbered from [a]. *)
Fixpoint numbered_failures (a : nat) (rs : list reply) : list (nat * string) :=
  match rs with
  | [] => []
  | Rejected e :: rs' => (a, message e) :: numbered_failures (S a) rs'
  | Fulfilled _ :: rs' => numbered_failures (S a) rs'
  end.

(** ** server.js: the direct connection (first and third revision)

    [mongoose.connect(process.env.MONGO_URI, { serverSelectionTimeoutMS: 30000 })
       .then(() => console.log('MongoDB connected'))
       .catch(err => { console.error('MongoDB connection error:', err);
                       process.exit(1); })] *)
Definition connect_once : Proc unit :=
  try_catch
    (_ <- await (mongoose_connect "MONGO_URI" (serverSelectionTimeoutMS 30000));;
     log (text "MongoDB connected"))
    (fun err =>
       log_error (text_with "MongoDB connection error:" err);;
       process_exit 1).

(** ** server.js: the form-intake route *)

(** The revisions of [server.js] whose route is modelled: [Rev1] checks the
    header row of the sheet before appending, [Rev2] appends directly and
    adds [details] to its error answer. *)
Inductive revision :=
| Rev1
| Rev2.

Definition headers : list string := ["Name"; "Email"; "Phone"; "Message"; "Timestamp"].

(** Reading [headerResponse.data] when the promise carried no object. *)
Definition type_error : error :=
  Error "Cannot read properties of undefined (reading 'data')".

(** The [try { await sheets.spreadsheets.values.append(request); ... }
    catch (error) { ...; throw error; }] at the end of [writeToGoogleSheets]. *)
Definition append_row (data : Body.t) : Proc unit :=
  try_catch
    (_ <- await (sheets_values_append "Sheet1!A:E"
                   [Cell (Body.name data); Cell (Body.email data);
                    Cell (Body.phone data); Cell (Body.message data); Now]);;
     log (text "Data written to Google Sheets"))
    (fun error =>
       log_error (text_with "Error writing to Google Sheets:" error);;
       Throw error).

Definition writeToGoogleSheets (rev : revision) (data : Body.t) : Proc unit :=
  match rev with
  | Rev1 =>
      headerResponse <- await (sheets_values_get "Sheet1!A1:E1");;
      match headerResponse with
      | undefined => Throw type_error
      | response None | response (Some []) =>
          _ <- await (sheets_values_update "Sheet1!A1:E1" [headers]);;
          append_row data
      | response (Some (_ :: _)) => append_row data
      end
  | Rev2 => append_row data
  end.

(** [app.post('/api/send-whatsapp', async (req, res) => { ... })];
    [number] is [process.env.MY_WHATSAPP_NUMBER]. *)
Definition send_whatsapp (rev : revision) (number : string) (body : Body.t) : Proc unit :=
  try_catch
    (_ <- await (user_save body);;
     writeToGoogleSheets rev body;;
     let chatId := number ++ "@c.us" in
     let userMessage :=
       "New message from " ++ Body.name body ++ " (" ++ Body.phone body ++ ", "
         ++ Body.email body ++ "): " ++ Body.message body in
     _ <- await (client_sendMessage chatId userMessage);;
     Do (res_json 200 (success_true "Message sent successfully!")) (Ret tt))
    (fun error =>
       log_error (text_with "Error sending WhatsApp message:" error);;
       Do (res_json 500
             (success_false (message error)
                (match rev with Rev1 => None | Rev2 => Some error end)))
          (Ret tt)).

(** *** What a run of the route left behind *)

(** The documents whose [save()] was fulfilled. *)
Fixpoint persisted (t : list event) : list Body.t :=
  match t with
  | [] => []
  | Called (user_save doc) (Fulfilled _) :: t' => doc :: persisted t'
  | _ :: t' => persisted t'
  end.

(** The answers given to the client. *)
Fixpoint responses (t : list event) : list (Z * json) :=
  match t with
  | [] => []
  | Out (res_json status body) :: t' => (status, body) :: responses t'
  | _ :: t' => responses t'
  end.

(** The three steps of the route. *)
Inductive step :=
| database_save
| spreadsheet_append
| whatsapp_send.

(** The steps attempted, in order (the header check of [Rev1] is not one). *)
Fixpoint steps (t : list event) : list step :=
  match t with
  | [] => []
  | Called (user_save _) _ :: t' => database_save :: steps t'
  | Called (sheets_values_append _ _) _ :: t' => spreadsheet_append :: steps t'
  | Called (client_sendMessage _ _) _ :: t' => whatsapp_send :: steps t'
  | _ :: t' => steps t'
  end.

(** The calls made, in order. *)
Fixpoint calls (t : list event) : list call :=
  match t with
  | [] => []
  | Called c _ :: t' => c :: calls t'
  | _ :: t' => calls t'
  end.

(** ** server.js, second revision: the event loop around [dbConnect()] *)

(** Runs a task up to its next suspension point (or its end). *)
Fixpoint advance {A : Type} (p : Proc A) : list output * Proc A :=
  match p with
  | Do o k => let (os, p') := advance k in (o :: os, p')
  | _ => ([], p)
  end.

(** - [supervisor]: what remains of the task started by [dbConnect();],
      whose promise nobody awaits;
    - [handlers]: the route handlers in flight;
    - [listening]: [app.listen(PORT)] has been called;
    - [exited]: the code given to [process.exit], once called;
    - [printed]: console lines and HTTP answers so far. *)
Record server := Server {
  supervisor : Proc unit;
  handlers : list (Proc unit);
  listening : bool;
  exited : option Z;
  printed : list output
}.

(** What the event loop can hand to the program: the settlement of the
    call the supervisor awaits, the firing of its timer, a submission, the
    settlement of the call the [n]-th handler awaits, and, from the
    messaging client started by [client.initialize()], its ['qr'], ['ready']
    and ['auth_failure'] events and the rejection of the promise of
    [initialize] itself.  Which of these the libraries produce, and when,
    is not constrained here. *)
Inductive arrival :=
| connect_settled (r : reply)
| timer_fired
| request (body : Body.t)
| handler_settled (n : nat) (r : reply)
| client_qr (qr : string)
| client_ready
| client_auth_failure (msg : string)
| client_initialize_rejected (e : error).

Definition exit_code {A : Type} (p : Proc A) : option Z :=
  match p with
  | Exit code => Some code
  | _ => None
  end.

Fixpoint replace_nth {A : Type} (n : nat) (x : A) (l : list A) : list A :=
  match l, n with
  | [], _ => []
  | _ :: l', O => x :: l'
  | y :: l', S n' => y :: replace_nth n' x l'
  end.

Definition resume_supervisor (s : server) (p : Proc unit) : server :=
  let (os, p') := advance p in
  {| supervisor := p'; handlers := handlers s; listening := listening s;
     exited := exit_code p'; printed := printed s ++ os |}.

Definition resume_handler (s : server) (n : nat) (p : Proc unit) : server :=
  let (os, p') := advance p in
  {| supervisor := supervisor s; handlers := replace_nth n p' (handlers s);
     listening := listening s; exited := exit_code p'; printed := printed s ++ os |}.

Definition spawn_handler (s : server) (p : Proc unit) : server :=
  let (os, p') := advance p in
  {| supervisor := supervisor s; handlers := handlers s ++ [p'];
     listening := listening s; exited := exit_code p'; printed := printed s ++ os |}.

(** A listener of the messaging client prints a line. *)
Definition print (s : server) (o : output) : server :=
  {| supervisor := supervisor s; handlers := handlers s; listening := listening s;
     exited := exited s; printed := printed s ++ [o] |}.

(** An exception nobody catches, or a rejection nobody handles, ends the
    process with code 1 (what Node does by default). *)
Definition crash (s : server) : server :=
  {| supervisor := supervisor s; handlers := handlers s; listening := listening s;
     exited := Some 1%Z; printed := printed s |}.

(** What [JSON.parse(process.env.GOOGLE_SHEETS_CREDENTIALS)] gives, as far
    as the script looks at it:
    - [unparsable e]: [JSON.parse] throws [e];
    - [unusable e]: it returns a value on which
      [sheetsCredentials.client_email] or
      [sheetsCredentials.private_key.replace(...)] throws the TypeError [e]
      ([null], or a value with no string under [private_key]);
    - [usable]: it returns an object with a string under [private_key]. *)
Inductive credentials :=
| unparsable (e : error)
| unusable (e : error)
| usable.

(** What the top level of the script depends on:
    - [env_PORT]: [process.env.PORT];
    - [env_credentials]: see [credentials];
    - [env_bind]: the error of [app.listen] when the port cannot be bound,
      emitted as an ['error'] event that has no listener. *)
Record environment := Environment {
  env_PORT : option string;
  env_credentials : credentials;
  env_bind : option error
}.

(** [const PORT = process.env.PORT || 5000;], as it prints. *)
Definition PORT (env : environment) : string :=
  match env_PORT env with
  | Some p => if (p =? "")%string then "5000" else p
  | None => "5000"
  end.

(** [let sheetsCredentials; try { sheetsCredentials = JSON.parse(...); }
     catch (error) { console.error('Error parsing Google Sheets
     credentials:', error); process.exit(1); }
     const sheetsClient = new google.auth.JWT(sheetsCredentials.client_email,
     null, sheetsCredentials.private_key.replace(/\\n/g, '\n'), [...]);] *)
Definition load_credentials (c : credentials) : Proc unit :=
  try_catch
    (match c with
     | unparsable e => Throw e
     | _ => Ret tt
     end)
    (fun error =>
       log_error (text_with "Error parsing Google Sheets credentials:" error);;
       process_exit 1);;
  match c with
  | unusable e => Throw e
  | _ => Ret tt
  end.

(** [app.listen(PORT, () => { console.log(`Server running on port ${PORT}`); });]
    The callback runs on the next tick, before anything else arrives; it
    is run here. *)
Definition listen (env : environment) : Proc unit :=
  match env_bind env with
  | Some e => Throw e
  | None => log (text ("Server running on port " ++ PORT env))
  end.

(** The top level of the script from the credentials on; the definitions
    of the routes between the two have no effect of their own. *)
Definition script (env : environment) : Proc unit :=
  load_credentials (env_credentials env);;
  listen env.

(** The server before the script has run. *)
Definition blank : server :=
  {| supervisor := dbConnect; handlers := []; listening := false;
     exited := None; printed := [] |}.

Section Server.

(** [process.env.MY_WHATSAPP_NUMBER] *)
Variable number : string.

(** One turn of the event loop.  Nothing runs once the process has
    exited; a request is served whenever the server listens. *)
Definition deliver (s : server) (a : arrival) : server :=
  match exited s with
  | Some _ => s
  | None =>
      match a with
      | connect_settled r =>
          match supervisor s with
          | Await _ k => resume_supervisor s (k r)
          | _ => s
          end
      | timer_fired =>
          match supervisor s with
          | Sleep _ k => resume_supervisor s k
          | _ => s
          end
      | request body =>
          if listening s then spawn_handler s (send_whatsapp Rev2 number body) else s
      | handler_settled n r =>
          match nth_error (handlers s) n with
          | Some (Await _ k) => resume_handler s n (k r)
          | _ => s
          end
      | client_qr qr => print s (console_log (qr_code qr))
      | client_ready => print s (console_log (text "WhatsApp client is ready!"))
      | client_auth_failure msg =>
          print s (console_error (text_and "WhatsApp auth failure:" msg))
      | client_initialize_rejected _ => crash s
      end
  end.

(** The top level of the script.  [dbConnect();] starts the supervisor,
    which runs to its first [await]; [client.initialize();] starts the
    messaging client, whose events arrive through the event loop; then
    [script] runs to its end.  The server listens if the script completes;
    [process.exit] ends the process with its code, an uncaught exception
    with code 1. *)
Definition start (env : environment) : server :=
  let s := resume_supervisor blank dbConnect in
  let (os, p) := advance (script env) in
  {| supervisor := supervisor s; handlers := handlers s;
     listening := match p with Ret _ => true | _ => false end;
     exited := match p with
               | Exit code => Some code
               | Throw _ => Some 1%Z
               | _ => None
               end;
     printed := printed s ++ os |}.

Definition deliver_all (s : server) (l : list arrival) : server := fold_left deliver l s.

End Server.

(** The supervisor has reached [Connected]: its promise is resolved. *)
Definition connected (s : server) : bool :=
  match supervisor s with
  | Ret _ => true
  | _ => false
  end.

(** The supervisor is between its first attempt and a terminal state. *)
Definition in_retry_window (s : server) : bool :=
  match supervisor s with
  | Await _ _ | Sleep _ _ => true
  | _ => false
  end.

(** ** Further observations *)

(** The delays announced by the "Retrying in ..." lines, in order. *)
Fixpoint announced_delays (t : list event) : list Z :=
  match t with
  | [] => []
  | Out (console_log (retrying_in ms)) :: t' => ms :: announced_delays t'
  | _ :: t' => announced_delays t'
  end.

(** The lines written with [console.error], in order. *)
Fixpoint error_lines (t : list event) : list line :=
  match t with
  | [] => []
  | Out (console_error l) :: t' => l :: error_lines t'
  | _ :: t' => error_lines t'
  end.

(** The (chatId, text) pairs whose [sendMessage] was fulfilled. *)
Fixpoint sent (t : list event) : list (string * string) :=
  match t with
  | [] => []
  | Called (client_sendMessage chatId msg) (Fulfilled _) :: t' => (chatId, msg) :: sent t'
  | _ :: t' => sent t'
  end.

(** Every [process.exit] a process can reach has a code satisfying [P]. *)
Fixpoint exits_within {A : Type} (P : Z -> Prop) (p : Proc A) : Prop :=
  match p with
  | Exit code => P code
  | Do _ k => exits_within P k
  | Await _ k => forall r, exits_within P (k r)
  | Sleep _ k => exits_within P k
  | Ret _ | Throw _ | OutOfFuel => True
  end.

(** The process cannot reach [process.exit]. *)
Definition never_exits {A : Type} (p : Proc A) : Prop := exits_within (fun _ => False) p.

(** The arrivals that concern the route. *)
Definition is_route_arrival (a : arrival) : bool :=
  match a with
  | request _ | handler_settled _ _ => true
  | _ => false
  end.

(** ** Scenarios *)

(** The store refuses the first four connections and accepts the fifth. *)
Definition refused_four_times : world :=
  fun i => if (i <? 4)%nat then Rejected (Error "ECONNREFUSED") else Fulfilled undefined.

(** The store refuses every connection. *)
Definition always_refused : world := fun _ => Rejected (Error "ECONNREFUSED").

(** The save and the append are fulfilled, the send is rejected. *)
Definition send_fails : world :=
  fun i => if (i <? 2)%nat then Fulfilled undefined else Rejected (Error "Session closed").

(** As [refused_four_times], the first four connections timing out. *)
Definition timed_out_four_times : world :=
  fun i => if (i <? 4)%nat then Rejected (Error "ETIMEDOUT") else Fulfilled undefined.

(** The save is fulfilled, the append is rejected. *)
Definition append_fails : world :=
  fun i => if (i <? 1)%nat then Fulfilled undefined else Rejected (Error "Quota exceeded").

(** Nothing is wrong at start-up: [PORT] is unset, the credentials are in
    order and the port is free. *)
Definition usual : environment :=
  {| env_PORT := None; env_credentials := usable; env_bind := None |}.

Definition a_submission : Body.t :=
  Body.Make "Amal" "amal@example.com" "+971500000000" "Please call me back".

(** * Facts *)

Local Open Scope list_scope.

(** ** The supervisor *)

Section SupervisorFacts.

Variable maxRetries : nat.
Variable retryInterval : Z.
Variable w : world.

Local Abbreviation connect := (mongoose_connect "MONGO_URL" (dbName "saudi")).
Local Abbreviation loop := (dbConnect_loop maxRetries retryInterval).

(** One turn of the loop, read off the reply to its call. *)
Lemma run_loop_step (fuel attempt i : nat) :
  attempt <= maxRetries ->
  run (loop (S fuel) attempt) w i =
  match w i with
  | Fulfilled v =>
      ([Called connect (Fulfilled v); Out (console_log connected_successfully)],
       Resolved tt)
  | Rejected e =>
      if (attempt =? maxRetries)%nat
      then ([Called connect (Rejected e);
             Out (console_error (attempt_failed attempt (message e)));
             Out (console_error max_retry_reached)],
            Exited 1%Z)
      else let (t, r) := run (loop fuel (S attempt)) w (S i) in
           (Called connect (Rejected e)
              :: Out (console_error (attempt_failed attempt (message e)))
              :: Out (console_log (retrying_in retryInterval))
              :: Slept retryInterval :: t, r)
  end.
Proof.
  intros Hle.
  apply Nat.leb_le in Hle.
  cbn [dbConnect_loop]. rewrite Hle.
  unfold dbConnect_iteration. cbn.
  destruct (w i) as [v | e]; cbn.
  - reflexivity.
  - destruct (attempt =? maxRetries)%nat; cbn.
    + reflexivity.
    + destruct (run (loop fuel (S attempt)) w (S i)) as [t r]. reflexivity.
Qed.

(** Induction over the turns of the loop: a property of (loop variable,
    call index, trace, outcome) that holds for a turn that connects, for
    the last turn when it fails, and is carried through a retry, holds
    of every run that is given fuel for the turns that remain. *)
Lemma dbConnect_loop_ind (P : nat -> nat -> list event -> outcome unit -> Prop) :
  (forall attempt i v,
      attempt <= maxRetries -> w i = Fulfilled v ->
      P attempt i
        [Called connect (Fulfilled v); Out (console_log connected_successfully)]
        (Resolved tt)) ->
  (forall i e,
      w i = Rejected e ->
      P maxRetries i
        [Called connect (Rejected e);
         Out (console_error (attempt_failed maxRetries (message e)));
         Out (console_error max_retry_reached)]
        (Exited 1%Z)) ->
  (forall attempt i e t r,
      attempt < maxRetries -> w i = Rejected e ->
      P (S attempt) (S i) t r ->
      P attempt i
        (Called connect (Rejected e)
           :: Out (console_error (attempt_failed attempt (message e)))
           :: Out (console_log (retrying_in retryInterval))
           :: Slept retryInterval :: t) r) ->
  forall fuel attempt i,
    attempt <= maxRetries -> maxRetries - attempt < fuel ->
    P attempt i (fst (run (loop fuel attempt) w i)) (snd (run (loop fuel attempt) w i)).
Proof.
  intros Hok Hlast Hretry.
  induction fuel as [| fuel IH]; intros attempt i Hle Hfuel; [lia |].
  rewrite run_loop_step by assumption.
  destruct (w i) as [v | e] eqn:Hw.
  - cbn. now apply Hok.
  - destruct (Nat.eqb_spec attempt maxRetries) as [-> | Hne].
    + cbn. now apply Hlast.
    + specialize (IH (S attempt) (S i)).
      destruct (run (loop fuel (S attempt)) w (S i)) as [t r]. cbn in *.
      apply Hretry; [lia | assumption | apply IH; lia].
Qed.

(** Fuel beyond the turns that remain changes nothing: the unrolling
    budget of [dbConnect_with] is never what ends a run. *)
Lemma run_loop_fuel (fuel fuel' attempt i : nat) :
  attempt <= maxRetries ->
  maxRetries - attempt < fuel -> maxRetries - attempt < fuel' ->
  run (loop fuel attempt) w i = run (loop fuel' attempt) w i.
Proof.
  revert fuel' attempt i.
  induction fuel as [| fuel IH]; intros fuel' attempt i Hle H1 H2; [lia |].
  destruct fuel' as [| fuel']; [lia |].
  rewrite !run_loop_step by assumption.
  destruct (w i) as [v | e]; [reflexivity |].
  destruct (Nat.eqb_spec attempt maxRetries) as [_ | Hne]; [reflexivity |].
  rewrite (IH fuel' (S attempt) (S i)) by lia. reflexivity.
Qed.

(** In the lemmas below a run starts with the loop variable at [attempt]
    and the next call at index [i] of the script, and has fuel for the
    turns that remain. *)

(** The attempts are answered by consecutive entries of the script; there
    is at least one, and the loop variable never passes [maxRetries]. *)
Lemma loop_attempt_outcomes (fuel attempt i : nat) :
  attempt <= maxRetries -> maxRetries - attempt < fuel ->
  let t := fst (run (loop fuel attempt) w i) in
  attempt_outcomes t = map w (seq i (attempts_made t)) /\
  1 <= attempts_made t /\
  attempt + attempts_made t <= S maxRetries.
Proof.
  intros Hle Hfuel.
  apply (dbConnect_loop_ind
           (fun a i t _ =>
              attempt_outcomes t = map w (seq i (attempts_made t)) /\
              1 <= attempts_made t /\
              a + attempts_made t <= S maxRetries)); try assumption.
  - intros a j v Ha Hw. unfold attempts_made. cbn. rewrite Hw. repeat split; lia.
  - intros j e Hw. unfold attempts_made. cbn. rewrite Hw. repeat split; lia.
  - intros a j e t r Ha Hw. unfold attempts_made. cbn.
    intros (IH1 & IH2 & IH3). rewrite Hw, IH1. repeat split; lia.
Qed.

(** Every failure is logged under the value of the loop variable. *)
Lemma loop_logged_failures (fuel attempt i : nat) :
  attempt <= maxRetries -> maxRetries - attempt < fuel ->
  let t := fst (run (loop fuel attempt) w i) in
  logged_failures t = numbered_failures attempt (attempt_outcomes t).
Proof.
  intros Hle Hfuel.
  apply (dbConnect_loop_ind
           (fun a _ t _ => logged_failures t = numbered_failures a (attempt_outcomes t)));
    try assumption.
  - reflexivity.
  - reflexivity.
  - intros a j e t r _ _ IH. cbn. now rewrite IH.
Qed.

(** The numbers logged are consecutive from the loop variable on. *)
Lemma loop_logged_numbers (fuel attempt i : nat) :
  attempt <= maxRetries -> maxRetries - attempt < fuel ->
  let t := fst (run (loop fuel attempt) w i) in
  exists k, attempt + k <= S maxRetries /\
            attempts_made t <= S k /\
            map fst (logged_failures t) = seq attempt k.
Proof.
  intros Hle Hfuel.
  apply (dbConnect_loop_ind
           (fun a _ t _ =>
              exists k, a + k <= S maxRetries /\
                        attempts_made t <= S k /\
                        map fst (logged_failures t) = seq a k));
    try assumption.
  - intros a j v Ha _. exists 0. unfold attempts_made. cbn. repeat split; lia.
  - intros j e _. exists 1. unfold attempts_made. cbn. repeat split; lia.
  - intros a j e t r Ha _ (k & Hk & Hn & IH). exists (S k).
    unfold attempts_made in *. cbn. rewrite IH. repeat split; lia.
Qed.

(** A run ends in exactly one of two ways: the last attempt was fulfilled,
    readiness is announced once and the promise resolves; or the last
    attempt was the one numbered [maxRetries], it was rejected, exhaustion
    is announced once and the process exits with code 1. *)
Lemma loop_terminal (fuel attempt i : nat) :
  attempt <= maxRetries -> maxRetries - attempt < fuel ->
  let t := fst (run (loop fuel attempt) w i) in
  let r := snd (run (loop fuel attempt) w i) in
  (r = Resolved tt /\
   is_fulfilled (w (i + attempts_made t - 1)) = true /\
   ready_signals t = 1 /\ fatal_signals t = 0)
  \/
  (r = Exited 1%Z /\
   attempt + attempts_made t = S maxRetries /\
   is_rejected (w (i + attempts_made t - 1)) = true /\
   ready_signals t = 0 /\ fatal_signals t = 1).
Proof.
  intros Hle Hfuel.
  apply (dbConnect_loop_ind
           (fun a i t r =>
              (r = Resolved tt /\
               is_fulfilled (w (i + attempts_made t - 1)) = true /\
               ready_signals t = 1 /\ fatal_signals t = 0)
              \/
              (r = Exited 1%Z /\
               a + attempts_made t = S maxRetries /\
               is_rejected (w (i + attempts_made t - 1)) = true /\
               ready_signals t = 0 /\ fatal_signals t = 1)));
    try assumption.
  - intros a j v _ Hw. left. unfold attempts_made, ready_signals, fatal_signals. cbn.
    replace (j + 1 - 1) with j by lia. rewrite Hw. repeat split.
  - intros j e Hw. right. unfold attempts_made, ready_signals, fatal_signals. cbn.
    replace (j + 1 - 1) with j by lia. rewrite Hw. repeat split. lia.
  - intros a j e t r Ha Hw. unfold attempts_made, ready_signals, fatal_signals. cbn.
    set (n := List.length (filter is_connect t)).
    replace (j + S n - 1) with (S j + n - 1) by lia.
    intros [(H1 & H2 & H3 & H4) | (H1 & H2 & H3 & H4 & H5)]; [left | right];
      repeat split; try assumption; lia.
Qed.

(** Every attempt but the last was rejected. *)
Lemma loop_earlier_rejected (fuel attempt i : nat) :
  attempt <= maxRetries -> maxRetries - attempt < fuel ->
  let t := fst (run (loop fuel attempt) w i) in
  forall j, i <= j -> j + 1 < i + attempts_made t -> is_rejected (w j) = true.
Proof.
  intros Hle Hfuel.
  apply (dbConnect_loop_ind
           (fun _ i t _ =>
              forall j, i <= j -> j + 1 < i + attempts_made t -> is_rejected (w j) = true));
    try assumption.
  - intros a j v _ _ k Hk1 Hk2. unfold attempts_made in Hk2. cbn in Hk2. lia.
  - intros j e _ k Hk1 Hk2. unfold attempts_made in Hk2. cbn in Hk2. lia.
  - intros a j e t r _ Hw IH k Hk1 Hk2. unfold attempts_made in *. cbn in Hk2.
    destruct (Nat.eq_dec k j) as [-> | Hne].
    + now rewrite Hw.
    + apply IH; lia.
Qed.

(** After each attempt and before the next one, the timers set are: one
    of [retryInterval] if the attempt was rejected and the loop variable is
    below [maxRetries], none otherwise. *)
Lemma loop_attempt_windows (fuel attempt i : nat) :
  attempt <= maxRetries -> maxRetries - attempt < fuel ->
  let t := fst (run (loop fuel attempt) w i) in
  attempt_windows t =
  map (fun j => (w j, if is_rejected (w j) && (attempt + (j - i) <? maxRetries)%nat
                      then [retryInterval] else []))
      (seq i (attempts_made t)).
Proof.
  intros Hle Hfuel.
  enough (H : delays_before_next_attempt (fst (run (loop fuel attempt) w i)) = [] /\
              attempt_windows (fst (run (loop fuel attempt) w i)) =
              map (fun j => (w j, if is_rejected (w j) && (attempt + (j - i) <? maxRetries)%nat
                                  then [retryInterval] else []))
                  (seq i (attempts_made (fst (run (loop fuel attempt) w i)))))
    by apply H.
  apply (dbConnect_loop_ind
           (fun a i t _ =>
              delays_before_next_attempt t = [] /\
              attempt_windows t =
              map (fun j => (w j, if is_rejected (w j) && (a + (j - i) <? maxRetries)%nat
                                  then [retryInterval] else []))
                  (seq i (attempts_made t))));
    try assumption.
  - intros a j v _ Hw. unfold attempts_made. cbn -[Nat.ltb]. rewrite Hw. cbn -[Nat.ltb]. split; reflexivity.
  - intros j e Hw. unfold attempts_made. cbn -[Nat.ltb]. rewrite Hw. cbn -[Nat.ltb].
    rewrite Nat.sub_diag, Nat.add_0_r, Nat.ltb_irrefl. split; reflexivity.
  - intros a j e t r Ha Hw (IH1 & IH2). unfold attempts_made in *. cbn -[Nat.ltb].
    rewrite IH1, IH2, Hw. cbn -[Nat.ltb]. split; [reflexivity |].
    rewrite Nat.sub_diag, Nat.add_0_r.
    apply Nat.ltb_lt in Ha. rewrite Ha. f_equal.
    apply map_ext_in. intros k Hk. apply in_seq in Hk.
    replace (a + (k - j)) with (S (a + (k - S j))) by lia. reflexivity.
Qed.

(** Every timer set by the loop is one of [retryInterval]. *)
Lemma loop_delays (fuel attempt i : nat) :
  attempt <= maxRetries -> maxRetries - attempt < fuel ->
  let t := fst (run (loop fuel attempt) w i) in
  delays t = repeat retryInterval (attempts_made t - 1).
Proof.
  intros Hle Hfuel.
  enough (H : 1 <= attempts_made (fst (run (loop fuel attempt) w i)) /\
              delays (fst (run (loop fuel attempt) w i)) =
              repeat retryInterval (attempts_made (fst (run (loop fuel attempt) w i)) - 1))
    by apply H.
  apply (dbConnect_loop_ind
           (fun _ _ t _ =>
              1 <= attempts_made t /\
              delays t = repeat retryInterval (attempts_made t - 1)));
    try assumption.
  - intros a j v _ _. unfold attempts_made. cbn. split; [lia | reflexivity].
  - intros j e _. unfold attempts_made. cbn. split; [lia | reflexivity].
  - intros a j e t r _ _ (IH1 & IH2). unfold attempts_made in *. cbn.
    rewrite IH2. split; [lia |].
    destruct (List.length (filter is_connect t)) as [| n]; [lia |].
    cbn. now rewrite Nat.sub_0_r.
Qed.

(** A run whose promise resolves ends with the fulfilled call and the
    line announcing readiness: nothing follows the success. *)
Lemma loop_success_is_last (fuel attempt i : nat) :
  attempt <= maxRetries -> maxRetries - attempt < fuel ->
  let t := fst (run (loop fuel attempt) w i) in
  let r := snd (run (loop fuel attempt) w i) in
  r = Resolved tt ->
  exists t0, t = t0 ++ [Called connect (w (i + attempts_made t - 1));
                        Out (console_log connected_successfully)].
Proof.
  intros Hle Hfuel.
  apply (dbConnect_loop_ind
           (fun _ i t r =>
              r = Resolved tt ->
              exists t0, t = t0 ++ [Called connect (w (i + attempts_made t - 1));
                                    Out (console_log connected_successfully)]));
    try assumption.
  - intros a j v _ Hw _. exists []. unfold attempts_made. cbn.
    replace (j + 1 - 1) with j by lia. now rewrite Hw.
  - intros j e _ H. discriminate H.
  - intros a j e t r _ _ IH Hr. destruct (IH Hr) as [t0 Ht0].
    unfold attempts_made in *. cbn.
    set (n := List.length (filter is_connect t)) in *.
    replace (j + S n - 1) with (S j + n - 1) by lia.
    eexists (_ :: _ :: _ :: _ :: t0). cbn. do 4 f_equal. exact Ht0.
Qed.

End SupervisorFacts.

(** *** The properties of the supervisor

    [dbConnect_with maxRetries retryInterval] is the body of [dbConnect]
    over its two constants; [dbConnect] itself is the instance at 5 and
    2000.  Attempts are numbered from 1, the script of the outside world
    from 0: attempt [S k] is answered by [w k]. *)

(** C1. Bounded attempts: whatever the positive maximum, if every attempt
    is rejected then [mongoose.connect] is called exactly [maxRetries]
    times, after which exhaustion is announced once and the process exits
    with code 1; the promise of [dbConnect] neither resolves nor rejects. *)
Theorem dbConnect_bounded_attempts (maxRetries : nat) (retryInterval : Z) (w : world) :
  1 <= maxRetries ->
  (forall k, k < maxRetries -> is_rejected (w k) = true) ->
  attempts_made (trace_of (dbConnect_with maxRetries retryInterval) w) = maxRetries /\
  fatal_signals (trace_of (dbConnect_with maxRetries retryInterval) w) = 1 /\
  outcome_of (dbConnect_with maxRetries retryInterval) w = Exited 1%Z.
Proof.
  intros HN Hall. unfold trace_of, outcome_of, dbConnect_with.
  destruct (loop_attempt_outcomes maxRetries retryInterval w (S maxRetries) 1 0)
    as (_ & Hn1 & Hn2); [lia | lia |].
  destruct (loop_terminal maxRetries retryInterval w (S maxRetries) 1 0)
    as [(_ & Hf & _) | (Hr & Hn & _ & _ & Hs)]; [lia | lia | |].
  - unfold is_fulfilled in Hf. rewrite Hall in Hf by lia. discriminate Hf.
  - repeat split; [lia | assumption | assumption].
Qed.

Lemma dbConnect_bounded_attempts_witness :
  attempts_made (trace_of dbConnect always_refused) = 5 /\
  fatal_signals (trace_of dbConnect always_refused) = 1 /\
  outcome_of dbConnect always_refused = Exited 1%Z.
Proof.
  apply (dbConnect_bounded_attempts 5 2000 always_refused).
  - lia.
  - intros k _. reflexivity.
Defined.

(** C2. Early success stops retries: if attempts 1 to [k] are rejected and
    attempt [k + 1 <= maxRetries] is fulfilled, then exactly [k + 1]
    attempts are made, readiness is announced once, the promise of
    [dbConnect] resolves, and the trace ends with the fulfilled call and
    the readiness line. *)
Theorem dbConnect_early_success
  (maxRetries : nat) (retryInterval : Z) (w : world) (k : nat) (v : value) :
  k < maxRetries ->
  (forall j, j < k -> is_rejected (w j) = true) ->
  w k = Fulfilled v ->
  attempts_made (trace_of (dbConnect_with maxRetries retryInterval) w) = S k /\
  ready_signals (trace_of (dbConnect_with maxRetries retryInterval) w) = 1 /\
  outcome_of (dbConnect_with maxRetries retryInterval) w = Resolved tt /\
  exists t0,
    trace_of (dbConnect_with maxRetries retryInterval) w =
    t0 ++ [Called (mongoose_connect "MONGO_URL" (dbName "saudi")) (Fulfilled v);
           Out (console_log connected_successfully)].
Proof.
  intros Hk Hrej Hw. unfold trace_of, outcome_of, dbConnect_with.
  pose proof (loop_attempt_outcomes maxRetries retryInterval w (S maxRetries) 1 0)
    as (_ & Hn1 & Hn2); [lia | lia |].
  pose proof (loop_earlier_rejected maxRetries retryInterval w (S maxRetries) 1 0) as Hearlier.
  pose proof (loop_success_is_last maxRetries retryInterval w (S maxRetries) 1 0) as Hlast.
  pose proof (loop_terminal maxRetries retryInterval w (S maxRetries) 1 0) as Hterm.
  cbv zeta in *.
  set (t := fst (run (dbConnect_loop maxRetries retryInterval (S maxRetries) 1) w 0)) in *.
  set (r := snd (run (dbConnect_loop maxRetries retryInterval (S maxRetries) 1) w 0)) in *.
  assert (Hupper : attempts_made t <= S k).
  { destruct (Nat.le_gt_cases (attempts_made t) (S k)) as [H | H]; [exact H |].
    specialize (Hearlier ltac:(lia) ltac:(lia) k ltac:(lia) ltac:(lia)).
    rewrite Hw in Hearlier. discriminate Hearlier. }
  assert (Hn : attempts_made t = S k).
  { destruct Hterm as [(_ & Hf & _) | (_ & HN & Hf & _)]; [lia | lia | |].
    - destruct (Nat.eq_dec (attempts_made t) (S k)) as [H | H]; [exact H |].
      unfold is_fulfilled in Hf. cbn in Hf. rewrite Hrej in Hf by lia. discriminate Hf.
    - destruct (Nat.eq_dec (attempts_made t) (S k)) as [H | H]; [exact H |]. lia. }
  destruct Hterm as [(Hr & _ & Hs & _) | (_ & _ & Hf & _)]; [lia | lia | |].
  - repeat split; try assumption.
    destruct (Hlast ltac:(lia) ltac:(lia) Hr) as [t0 Ht0]. exists t0.
    rewrite Ht0 at 1. rewrite Hn. cbn. rewrite Nat.sub_0_r, Hw. reflexivity.
  - rewrite Hn in Hf. cbn in Hf. rewrite Nat.sub_0_r, Hw in Hf. discriminate Hf.
Qed.

Lemma dbConnect_early_success_witness :
  attempts_made (trace_of dbConnect refused_four_times) = 5 /\
  ready_signals (trace_of dbConnect refused_four_times) = 1 /\
  outcome_of dbConnect refused_four_times = Resolved tt /\
  exists t0,
    trace_of dbConnect refused_four_times =
    t0 ++ [Called (mongoose_connect "MONGO_URL" (dbName "saudi")) (Fulfilled undefined);
           Out (console_log connected_successfully)].
Proof.
  apply (dbConnect_early_success 5 2000 refused_four_times 4 undefined).
  - lia.
  - intros j Hj. unfold refused_four_times.
    apply Nat.ltb_lt in Hj. rewrite Hj. reflexivity.
  - reflexivity.
Defined.

(** With no attempt allowed the loop is never entered: [dbConnect_with 0]
    returns at once, having called and printed nothing.  The properties
    that speak of a terminal signal therefore ask for a positive maximum,
    as [dbConnect]'s own 5 is. *)
Lemma dbConnect_with_zero (retryInterval : Z) (w : world) :
  run (dbConnect_with 0 retryInterval) w 0 = ([], Resolved tt).
Proof. reflexivity. Qed.

(** A rejected attempt whose number is below the maximum is followed by
    another attempt. *)
Lemma dbConnect_retry_follows (maxRetries : nat) (retryInterval : Z) (w : world) (k : nat) :
  1 <= maxRetries ->
  k < attempts_made (trace_of (dbConnect_with maxRetries retryInterval) w) ->
  is_rejected (w k) = true ->
  S k < maxRetries ->
  S k < attempts_made (trace_of (dbConnect_with maxRetries retryInterval) w).
Proof.
  unfold trace_of, dbConnect_with. intros HN Hk Hrej Hlt.
  destruct (loop_terminal maxRetries retryInterval w (S maxRetries) 1 0)
    as [(_ & Hf & _) | (_ & Hn & _)]; [lia | lia | |]; [| lia].
  set (n := attempts_made _) in *.
  destruct (Nat.eq_dec k (n - 1)) as [-> | Hne]; [| lia].
  unfold is_fulfilled in Hf. cbn in Hf. rewrite Hrej in Hf. discriminate Hf.
Qed.

(** C3. Failure semantics, for a positive maximum and any behaviour of the
    store: every rejected attempt is logged with its number and its
    message; a rejected attempt below the maximum is followed by another
    attempt; [dbConnect]'s promise never rejects; the process exits (with
    code 1) exactly when attempt [maxRetries] was made and rejected, and
    otherwise the promise resolves. *)
Theorem dbConnect_failure_semantics (maxRetries : nat) (retryInterval : Z) (w : world) :
  1 <= maxRetries ->
  let t := trace_of (dbConnect_with maxRetries retryInterval) w in
  let r := outcome_of (dbConnect_with maxRetries retryInterval) w in
  logged_failures t = numbered_failures 1 (map w (seq 0 (attempts_made t))) /\
  (forall k, k < attempts_made t -> is_rejected (w k) = true ->
             S k < maxRetries -> S k < attempts_made t) /\
  (forall e, r <> Threw e) /\
  (r = Exited 1%Z <-> attempts_made t = maxRetries /\ is_rejected (w (maxRetries - 1)) = true) /\
  (r = Resolved tt \/ r = Exited 1%Z).
Proof.
  intros HN t r.
  assert (Hlog : logged_failures t = numbered_failures 1 (map w (seq 0 (attempts_made t)))).
  { subst t. unfold trace_of, dbConnect_with.
    rewrite loop_logged_failures by lia.
    now destruct (loop_attempt_outcomes maxRetries retryInterval w (S maxRetries) 1 0)
      as (-> & _); [lia | lia |]. }
  split; [exact Hlog |].
  split; [intros k; now apply dbConnect_retry_follows |].
  destruct (loop_terminal maxRetries retryInterval w (S maxRetries) 1 0)
    as [(Hr & Hf & _) | (Hr & Hn & Hf & _)]; [lia | lia | |];
    fold (dbConnect_with maxRetries retryInterval) in *;
    change (fst (run (dbConnect_with maxRetries retryInterval) w 0)) with t in *;
    change (snd (run (dbConnect_with maxRetries retryInterval) w 0)) with r in *.
  - split; [| split; [split |]].
    + intros e He. rewrite Hr in He. discriminate He.
    + intros He. rewrite Hr in He. discriminate He.
    + intros [Hn Hrej]. exfalso. unfold is_fulfilled in Hf. cbn in Hf.
      rewrite Hn, Hrej in Hf. discriminate Hf.
    + now left.
  - assert (Hn' : attempts_made t = maxRetries) by lia.
    split; [| split; [split |]].
    + intros e He. rewrite Hr in He. discriminate He.
    + intros _. split; [exact Hn' |]. cbn in Hf. now rewrite Hn' in Hf.
    + intros _. exact Hr.
    + now right.
Qed.

Lemma dbConnect_failure_semantics_witness :
  let t := trace_of dbConnect refused_four_times in
  let r := outcome_of dbConnect refused_four_times in
  logged_failures t = numbered_failures 1 (map refused_four_times (seq 0 (attempts_made t))) /\
  (forall k, k < attempts_made t -> is_rejected (refused_four_times k) = true ->
             S k < 5 -> S k < attempts_made t) /\
  (forall e, r <> Threw e) /\
  (r = Exited 1%Z <-> attempts_made t = 5 /\ is_rejected (refused_four_times (5 - 1)) = true) /\
  (r = Resolved tt \/ r = Exited 1%Z).
Proof.
  apply (dbConnect_failure_semantics 5 2000 refused_four_times). lia.
Defined.

(** C5. Fixed delay, for any maximum and any behaviour of the store: the
    timers set after an attempt and before the next one (or the end) are
    exactly one timer of [retryInterval] when the attempt was rejected and
    its number is below [maxRetries], and none when it was fulfilled or was
    attempt [maxRetries]; a rejected attempt below the maximum is followed
    by the next attempt; and the delays of a run are the same
    [retryInterval] throughout, one fewer than the attempts. *)
Theorem dbConnect_fixed_delay (maxRetries : nat) (retryInterval : Z) (w : world) :
  let t := trace_of (dbConnect_with maxRetries retryInterval) w in
  attempt_windows t =
  map (fun k => (w k, if is_rejected (w k) && (S k <? maxRetries)%nat
                      then [retryInterval] else []))
      (seq 0 (attempts_made t)) /\
  (forall k, k < attempts_made t -> is_rejected (w k) = true ->
             S k < maxRetries -> S k < attempts_made t) /\
  delays t = repeat retryInterval (attempts_made t - 1).
Proof.
  destruct maxRetries as [| N].
  - cbn. repeat split. intros k Hk. unfold attempts_made in Hk. cbn in Hk. lia.
  - cbv zeta. unfold trace_of at 1 4 5, dbConnect_with. repeat split.
    + rewrite loop_attempt_windows by lia.
      apply map_ext. intros k. now rewrite Nat.sub_0_r.
    + intros k. apply dbConnect_retry_follows. lia.
    + apply loop_delays; lia.
Qed.

(** C6. Attempt numbering, for any maximum and any behaviour of the store:
    the attempt numbers printed are 1, 2, ..., k for some [k <= maxRetries];
    at most [maxRetries] attempts are made, answered by consecutive entries
    of the script; every attempt before the last was rejected, and the
    last one either was fulfilled or was attempt [maxRetries]. *)
Theorem dbConnect_attempt_numbering (maxRetries : nat) (retryInterval : Z) (w : world) :
  let t := trace_of (dbConnect_with maxRetries retryInterval) w in
  (exists k, k <= maxRetries /\ map fst (logged_failures t) = seq 1 k) /\
  attempts_made t <= maxRetries /\
  attempt_outcomes t = map w (seq 0 (attempts_made t)) /\
  (forall j, S j < attempts_made t -> is_rejected (w j) = true) /\
  (is_fulfilled (w (attempts_made t - 1)) = true \/ attempts_made t = maxRetries).
Proof.
  destruct maxRetries as [| N].
  - cbn. repeat split.
    + exists 0. split; [lia | reflexivity].
    + unfold attempts_made. cbn. lia.
    + intros j Hj. unfold attempts_made in Hj. cbn in Hj. lia.
    + now right.
  - cbv zeta. unfold trace_of, dbConnect_with.
    destruct (loop_attempt_outcomes (S N) retryInterval w (S (S N)) 1 0)
      as (Hout & Hn1 & Hn2); [lia | lia |].
    repeat split.
    + destruct (loop_logged_numbers (S N) retryInterval w (S (S N)) 1 0)
        as (k & Hk & _ & Hseq); [lia | lia |].
      exists k. split; [lia | exact Hseq].
    + lia.
    + exact Hout.
    + intros j Hj. apply (loop_earlier_rejected (S N) retryInterval w (S (S N)) 1 0); lia.
    + destruct (loop_terminal (S N) retryInterval w (S (S N)) 1 0)
        as [(_ & Hf & _) | (_ & Hn & _)]; [lia | lia | |].
      * left. exact Hf.
      * right. lia.
Qed.

(** C7. Terminal exclusivity, for a positive maximum and any behaviour of
    the store: either readiness is announced exactly once, exhaustion is
    never announced and the promise resolves; or exhaustion is announced
    exactly once, readiness never, and the process exits with code 1. *)
Theorem dbConnect_terminal_exclusivity (maxRetries : nat) (retryInterval : Z) (w : world) :
  1 <= maxRetries ->
  let t := trace_of (dbConnect_with maxRetries retryInterval) w in
  let r := outcome_of (dbConnect_with maxRetries retryInterval) w in
  (r = Resolved tt /\ ready_signals t = 1 /\ fatal_signals t = 0) \/
  (r = Exited 1%Z /\ ready_signals t = 0 /\ fatal_signals t = 1).
Proof.
  intros HN. cbv zeta. unfold trace_of, outcome_of, dbConnect_with.
  destruct (loop_terminal maxRetries retryInterval w (S maxRetries) 1 0)
    as [(Hr & _ & H1 & H2) | (Hr & _ & _ & H1 & H2)]; [lia | lia | |].
  - left. repeat split; assumption.
  - right. repeat split; assumption.
Qed.

Lemma dbConnect_terminal_exclusivity_witness :
  let t := trace_of dbConnect always_refused in
  let r := outcome_of dbConnect always_refused in
  (r = Resolved tt /\ ready_signals t = 1 /\ fatal_signals t = 0) \/
  (r = Exited 1%Z /\ ready_signals t = 0 /\ fatal_signals t = 1).
Proof.
  apply (dbConnect_terminal_exclusivity 5 2000 always_refused). lia.
Defined.

(** C8. The scenario of four refusals: [dbConnect] (5 attempts, 2000 ms)
    calls [mongoose.connect] five times and prints a line for each
    attempt: the failures of attempts 1 to 4 with "ECONNREFUSED", each
    followed by the retry line, and the success of the fifth; a timer of
    2000 ms is set after each of the four failures and none after the
    success, 8000 ms in all; exhaustion is not announced and the promise
    resolves. *)
Theorem dbConnect_refused_four_times :
  let t := trace_of dbConnect refused_four_times in
  attempts_made t = 5 /\
  console t =
    [console_error (attempt_failed 1 "ECONNREFUSED"); console_log (retrying_in 2000);
     console_error (attempt_failed 2 "ECONNREFUSED"); console_log (retrying_in 2000);
     console_error (attempt_failed 3 "ECONNREFUSED"); console_log (retrying_in 2000);
     console_error (attempt_failed 4 "ECONNREFUSED"); console_log (retrying_in 2000);
     console_log connected_successfully] /\
  map snd (attempt_windows t) = [[2000]; [2000]; [2000]; [2000]; []]%Z /\
  fold_right Z.add 0%Z (delays t) = 8000%Z /\
  ready_signals t = 1 /\
  fatal_signals t = 0 /\
  outcome_of dbConnect refused_four_times = Resolved tt.
Proof.
  cbv zeta. repeat split.
Qed.

(** ** The direct connection *)

(** Case analysis on the replies a run consults, one at a time, and on
    the value carried by a reply when the code inspects it. *)
Ltac settle_replies w :=
  repeat first
    [ match goal with
      | |- context [match ?x with _ => _ end] => is_var x; destruct x; cbn
      end
    | match goal with
      | |- context [w ?i] => destruct (w i) as [? | ?] eqn:?; cbn
      end ].

(** The route never calls [mongoose.connect]. *)
Lemma send_whatsapp_never_connects
  (rev : revision) (number : string) (body : Body.t) (w : world) :
  attempts_made (trace_of (send_whatsapp rev number body) w) = 0.
Proof.
  unfold trace_of, send_whatsapp, writeToGoogleSheets, append_row, attempts_made.
  destruct rev; cbn; settle_replies w; reflexivity.
Qed.

(** C9. The direct connection of the first and third revision: whatever
    the store answers, [mongoose.connect] is called once and no timer is
    set; a rejection is printed and followed at once by [process.exit(1)],
    a fulfilment by the line "MongoDB connected"; and the route, the only
    other code that runs, never calls [mongoose.connect] again. *)
Theorem connect_once_single_attempt (w : world) :
  let t := trace_of connect_once w in
  attempts_made t = 1 /\
  delays t = [] /\
  t = Called (mongoose_connect "MONGO_URI" (serverSelectionTimeoutMS 30000)) (w 0)
        :: match w 0 with
           | Rejected e => [Out (console_error (text_with "MongoDB connection error:" e))]
           | Fulfilled _ => [Out (console_log (text "MongoDB connected"))]
           end /\
  outcome_of connect_once w = (if is_rejected (w 0) then Exited 1%Z else Resolved tt) /\
  (forall number body w', attempts_made (trace_of (send_whatsapp Rev1 number body) w') = 0).
Proof.
  cbv zeta.
  split; [| split; [| split; [| split]]];
    try (intros; apply send_whatsapp_never_connects);
    unfold trace_of, outcome_of, connect_once, attempts_made; cbn;
    destruct (w 0) as [v | e]; reflexivity.
Qed.

(** ** The form-intake route *)

(** The rejected call of a concrete trace, found among its events. *)
Ltac find_rejection H :=
  cbn in H;
  repeat (destruct H as [H | H]; [try discriminate H |]);
  try contradiction H.

(** C10. The route is not atomic.  For both revisions and any behaviour of
    the outside world: the steps attempted are the save, then the append,
    then the send, in that order and up to the first that fails; the
    document is persisted as soon as its save is fulfilled, whatever
    happens afterwards; a rejected call is the last call of the run (none
    undoes an earlier step), and the client is answered once, with status
    500, [success: false] and the message of the rejection; the handler
    itself never throws. *)
Theorem send_whatsapp_not_atomic
  (rev : revision) (number : string) (body : Body.t) (w : world) :
  let t := trace_of (send_whatsapp rev number body) w in
  (exists n, 1 <= n <= 3 /\
             steps t = firstn n [database_save; spreadsheet_append; whatsapp_send]) /\
  persisted t = (if is_fulfilled (w 0) then [body] else []) /\
  (forall c e,
      In (Called c (Rejected e)) t ->
      (exists cs, calls t = cs ++ [c]) /\
      responses t =
        [(500%Z, success_false (message e)
                   (match rev with Rev1 => None | Rev2 => Some e end))]) /\
  outcome_of (send_whatsapp rev number body) w = Resolved tt.
Proof.
  unfold trace_of, outcome_of, send_whatsapp, writeToGoogleSheets, append_row.
  destruct rev; cbn; settle_replies w.
  all: split;
    [match goal with
     | |- exists n, _ /\ ?l = _ => exists (List.length l); split; [cbn; lia | reflexivity]
     end |].
  all: split; [reflexivity |].
  all: split; [| reflexivity].
  all: intros ? ? Hin; find_rejection Hin.
  all: inversion Hin; subst; split; [| reflexivity].
  all: match goal with
       | |- exists cs, ?l = _ => exists (removelast l); reflexivity
       end.
Qed.

Lemma send_whatsapp_not_atomic_witness :
  persisted (trace_of (send_whatsapp Rev2 "971500000000" a_submission) send_fails)
  = [a_submission] /\
  responses (trace_of (send_whatsapp Rev2 "971500000000" a_submission) send_fails)
  = [(500%Z, success_false "Session closed" (Some (Error "Session closed")))].
Proof.
  destruct (send_whatsapp_not_atomic Rev2 "971500000000" a_submission send_fails)
    as (_ & Hsaved & Hrejected & _).
  split; [exact Hsaved |].
  apply (Hrejected
           (client_sendMessage "971500000000@c.us"
              "New message from Amal (+971500000000, amal@example.com): Please call me back")
           (Error "Session closed")).
  cbn. do 3 right. left. reflexivity.
Defined.

(** ** The server of the second revision *)

(** No turn of the event loop makes the server stop (or start) listening. *)
Lemma deliver_listening (number : string) (s : server) (a : arrival) :
  listening (deliver number s a) = listening s.
Proof.
  unfold deliver, resume_supervisor, resume_handler, spawn_handler.
  destruct (exited s); [reflexivity |].
  destruct a as [r | | body | n r | qr | | msg | e]; try reflexivity.
  - destruct (supervisor s); try reflexivity.
    now destruct (advance _).
  - destruct (supervisor s); try reflexivity.
    now destruct (advance _).
  - destruct (listening s) eqn:Hl; [| exact Hl].
    now destruct (advance _).
  - destruct (nth_error (handlers s) n) as [[] |]; try reflexivity.
    now destruct (advance _).
Qed.

Lemma deliver_all_listening (number : string) (l : list arrival) (s : server) :
  listening (deliver_all number s l) = listening s.
Proof.
  unfold deliver_all. revert s.
  induction l as [| a l IH]; intros s; [reflexivity |].
  cbn. now rewrite IH, deliver_listening.
Qed.

(** Nothing is delivered to a process that has exited. *)
Lemma deliver_all_exited (number : string) (s : server) (l : list arrival) (code : Z) :
  exited s = Some code -> deliver_all number s l = s.
Proof.
  intros Hexit. unfold deliver_all.
  induction l as [| a l IH]; [reflexivity |].
  cbn. unfold deliver at 2. now rewrite Hexit.
Qed.

(** Whatever the environment, the script leaves the process either exited
    or listening. *)
Lemma start_listening (env : environment) :
  exited (start env) = None -> listening (start env) = true.
Proof.
  destruct env as [port [e | e |] [e' |]]; cbn; intros H; try discriminate H; reflexivity.
Qed.

(** C4, as the code has it.  [dbConnect()] is started and not awaited, and
    the route does not consult it: in every state the running server can
    reach, whatever the supervisor is doing, a submission starts the route
    handler, whose first act is to call [user.save()]; the supervisor is
    left as it was. *)
Theorem intake_ignores_readiness
  (number : string) (env : environment) (arrivals : list arrival) (body : Body.t) :
  let s := deliver_all number (start env) arrivals in
  exited s = None ->
  exists k,
    handlers (deliver number s (request body)) = handlers s ++ [Await (user_save body) k] /\
    supervisor (deliver number s (request body)) = supervisor s.
Proof.
  intros s Hrunning.
  assert (Hlistening : listening s = true).
  { unfold s. rewrite deliver_all_listening. apply start_listening.
    destruct (exited (start env)) as [code |] eqn:Hstart; [| reflexivity].
    unfold s in Hrunning.
    rewrite (deliver_all_exited number (start env) arrivals code Hstart) in Hrunning.
    rewrite Hstart in Hrunning. discriminate Hrunning. }
  clearbody s.
  unfold deliver. rewrite Hrunning, Hlistening.
  unfold spawn_handler. cbn.
  eexists. split; reflexivity.
Qed.

Lemma intake_ignores_readiness_witness :
  let s := deliver_all "971500000000" (start usual)
             [connect_settled (Rejected (Error "ECONNREFUSED"))] in
  exists k,
    handlers (deliver "971500000000" s (request a_submission))
    = handlers s ++ [Await (user_save a_submission) k] /\
    supervisor (deliver "971500000000" s (request a_submission)) = supervisor s.
Proof.
  apply (intake_ignores_readiness "971500000000" usual
           [connect_settled (Rejected (Error "ECONNREFUSED"))] a_submission).
  reflexivity.
Defined.

(** C4, as the specification has it, fails.  The server has started, the
    first connection is refused and the supervisor waits for its timer: it
    is in its retry window, not connected.  A submission arrives: it is
    not refused; its handler is started and has called [user.save()],
    which is all the handler does before that call settles.  When the
    timer has fired, the second connection has been fulfilled and the
    three calls of the handler have then settled, that same submission is
    answered "Message sent successfully!". *)
Lemma intake_accepted_in_retry_window :
  let s := deliver_all "971500000000" (start usual)
             [connect_settled (Rejected (Error "ECONNREFUSED"))] in
  let s' := deliver "971500000000" s (request a_submission) in
  let s'' := deliver_all "971500000000" s'
               [timer_fired;
                connect_settled (Fulfilled undefined);
                handler_settled 0 (Fulfilled undefined);
                handler_settled 0 (Fulfilled undefined);
                handler_settled 0 (Fulfilled undefined)] in
  in_retry_window s = true /\ connected s = false /\ handlers s = [] /\
  in_retry_window s' = true /\ connected s' = false /\ exited s' = None /\
  (exists k, handlers s' = [Await (user_save a_submission) k]) /\
  connected s'' = true /\
  responses (map Out (printed s'')) = [(200%Z, success_true "Message sent successfully!")].
Proof.
  cbv zeta. repeat split. eexists. reflexivity.
Qed.

(** * Further properties *)

(** ** The supervisor *)

(** The decisions of the loop depend on whether a connection is rejected,
    not on the error it is rejected with, nor on the interval. *)
Lemma loop_uniform_retry
  (maxRetries : nat) (D D' : Z) (w w' : world) (fuel attempt i : nat) :
  (forall k, is_rejected (w k) = is_rejected (w' k)) ->
  attempt <= maxRetries -> maxRetries - attempt < fuel ->
  let t := fst (run (dbConnect_loop maxRetries D fuel attempt) w i) in
  let t' := fst (run (dbConnect_loop maxRetries D' fuel attempt) w' i) in
  attempts_made t = attempts_made t' /\
  map is_rejected (attempt_outcomes t) = map is_rejected (attempt_outcomes t') /\
  map fst (logged_failures t) = map fst (logged_failures t') /\
  List.length (delays t) = List.length (delays t') /\
  snd (run (dbConnect_loop maxRetries D fuel attempt) w i)
  = snd (run (dbConnect_loop maxRetries D' fuel attempt) w' i).
Proof.
  intros Hsame. revert attempt i.
  induction fuel as [| fuel IH]; intros attempt i Hle Hfuel; [lia |].
  cbv zeta. rewrite !run_loop_step by assumption.
  pose proof (Hsame i) as Hi.
  destruct (w i) as [v | e], (w' i) as [v' | e']; try discriminate Hi.
  - unfold attempts_made. cbn. repeat split.
  - destruct (Nat.eqb_spec attempt maxRetries) as [_ | Hne].
    + unfold attempts_made. cbn. repeat split.
    + specialize (IH (S attempt) (S i) ltac:(lia) ltac:(lia)). cbv zeta in IH.
      destruct (run (dbConnect_loop maxRetries D fuel (S attempt)) w (S i)) as [t r].
      destruct (run (dbConnect_loop maxRetries D' fuel (S attempt)) w' (S i)) as [t' r'].
      unfold attempts_made in *. cbn in *.
      destruct IH as (H1 & H2 & H3 & H4 & H5).
      repeat split; congruence.
Qed.

(** X1. Uniform retry: two runs of the loop whose connections are rejected
    at the same attempts make the same number of attempts, print the same
    attempt numbers, set as many timers and end the same way, whatever the
    errors and whatever the two intervals. *)
Theorem dbConnect_uniform_retry (maxRetries : nat) (D D' : Z) (w w' : world) :
  (forall k, is_rejected (w k) = is_rejected (w' k)) ->
  let t := trace_of (dbConnect_with maxRetries D) w in
  let t' := trace_of (dbConnect_with maxRetries D') w' in
  attempts_made t = attempts_made t' /\
  map is_rejected (attempt_outcomes t) = map is_rejected (attempt_outcomes t') /\
  map fst (logged_failures t) = map fst (logged_failures t') /\
  List.length (delays t) = List.length (delays t') /\
  outcome_of (dbConnect_with maxRetries D) w = outcome_of (dbConnect_with maxRetries D') w'.
Proof.
  intros Hsame. destruct maxRetries as [| N].
  - cbn. repeat split.
  - apply loop_uniform_retry; [assumption | lia | lia].
Qed.

Lemma dbConnect_uniform_retry_witness :
  let t := trace_of dbConnect refused_four_times in
  let t' := trace_of (dbConnect_with 5 500) timed_out_four_times in
  attempts_made t = attempts_made t' /\
  map is_rejected (attempt_outcomes t) = map is_rejected (attempt_outcomes t') /\
  map fst (logged_failures t) = map fst (logged_failures t') /\
  List.length (delays t) = List.length (delays t') /\
  outcome_of dbConnect refused_four_times = outcome_of (dbConnect_with 5 500) timed_out_four_times.
Proof.
  apply (dbConnect_uniform_retry 5 2000 500 refused_four_times timed_out_four_times).
  intros k. unfold refused_four_times, timed_out_four_times.
  destruct (k <? 4)%nat; reflexivity.
Defined.

(** The sum of [n] delays of [D]. *)
Lemma sum_repeat (D : Z) (n : nat) :
  fold_right Z.add 0%Z (repeat D n) = (D * Z.of_nat n)%Z.
Proof.
  induction n as [| n IH]; [cbn; lia |].
  cbn [repeat fold_right]. rewrite IH. lia.
Qed.

(** X2. Every timer is announced and every announcement is followed by its
    timer: the delays of the "Retrying in ..." lines are the delays of the
    timers, in order; and the time a run spends waiting is the interval
    times one less than the number of attempts it makes. *)
Theorem dbConnect_announced_delays (maxRetries : nat) (retryInterval : Z) (w : world) :
  let t := trace_of (dbConnect_with maxRetries retryInterval) w in
  announced_delays t = delays t /\
  fold_right Z.add 0%Z (delays t) = (retryInterval * Z.of_nat (attempts_made t - 1))%Z.
Proof.
  destruct maxRetries as [| N].
  - cbn. split; [reflexivity | lia].
  - cbv zeta. unfold trace_of, dbConnect_with. split.
    + apply (dbConnect_loop_ind (S N) retryInterval w
               (fun _ _ t _ => announced_delays t = delays t)); try lia.
      * reflexivity.
      * reflexivity.
      * intros a j e t r _ _ IH. cbn. now rewrite IH.
    + rewrite loop_delays by lia. apply sum_repeat.
Qed.

(** X3. The supervisor talks to the store only: every call of a run is
    [mongoose.connect(process.env.MONGO_URL, { dbName: "saudi" })]. *)
Theorem dbConnect_calls_only_connect (maxRetries : nat) (retryInterval : Z) (w : world) :
  let t := trace_of (dbConnect_with maxRetries retryInterval) w in
  calls t = repeat (mongoose_connect "MONGO_URL" (dbName "saudi")) (attempts_made t).
Proof.
  destruct maxRetries as [| N]; [reflexivity |].
  cbv zeta. unfold trace_of, dbConnect_with.
  apply (dbConnect_loop_ind (S N) retryInterval w
           (fun _ _ t _ =>
              calls t = repeat (mongoose_connect "MONGO_URL" (dbName "saudi"))
                               (attempts_made t))); try lia.
  - reflexivity.
  - reflexivity.
  - intros a j e t r _ _ IH. unfold attempts_made in *. cbn. now rewrite IH.
Qed.

(** A run that connects is not changed by a larger maximum. *)
Lemma loop_larger_maximum
  (N N' : nat) (D : Z) (w : world) (fuel fuel' attempt i : nat) :
  N <= N' -> attempt <= N ->
  N - attempt < fuel -> N' - attempt < fuel' ->
  snd (run (dbConnect_loop N D fuel attempt) w i) = Resolved tt ->
  run (dbConnect_loop N' D fuel' attempt) w i = run (dbConnect_loop N D fuel attempt) w i.
Proof.
  intros HN. revert fuel' attempt i.
  induction fuel as [| fuel IH]; intros fuel' attempt i Hle Hfuel Hfuel'; [lia |].
  destruct fuel' as [| fuel']; [lia |].
  rewrite !run_loop_step by lia.
  destruct (w i) as [v | e]; [reflexivity |].
  destruct (Nat.eqb_spec attempt N) as [-> | Hne]; [intros H; discriminate H |].
  destruct (Nat.eqb_spec attempt N') as [-> | Hne']; [lia |].
  specialize (IH fuel' (S attempt) (S i) ltac:(lia) ltac:(lia) ltac:(lia)).
  destruct (run (dbConnect_loop N D fuel (S attempt)) w (S i)) as [t r].
  cbn. intros Hr. now rewrite (IH Hr).
Qed.

(** X4. Raising the maximum does not disturb a run that connects: if the
    run with at most [N] attempts announces readiness, the run with any
    larger maximum is the same run, event for event. *)
Theorem dbConnect_larger_maximum (N N' : nat) (D : Z) (w : world) :
  N <= N' ->
  ready_signals (trace_of (dbConnect_with N D) w) = 1 ->
  run (dbConnect_with N' D) w 0 = run (dbConnect_with N D) w 0.
Proof.
  intros HN Hready. destruct N as [| N]; [discriminate Hready |].
  unfold dbConnect_with. apply loop_larger_maximum; try lia.
  destruct (loop_terminal (S N) D w (S (S N)) 1 0)
    as [(Hr & _) | (_ & _ & _ & H0 & _)]; [lia | lia | exact Hr |].
  unfold trace_of, dbConnect_with in Hready. rewrite Hready in H0. discriminate H0.
Qed.

Lemma dbConnect_larger_maximum_witness :
  run (dbConnect_with 8 2000) refused_four_times 0 = run dbConnect refused_four_times 0.
Proof.
  apply (dbConnect_larger_maximum 5 8 2000 refused_four_times).
  - lia.
  - reflexivity.
Defined.

(** ** The spreadsheet helper *)

(** X5. The header row (first revision).  [writeToGoogleSheets] first reads
    the header range.  If it holds a row, the data row is appended and the
    header is not touched; if it holds none, the five column names are
    written first and the data row is appended only once that write is
    fulfilled; if the read is rejected, or carries no object, nothing is
    written at all. *)
Theorem writeToGoogleSheets_header_row (data : Body.t) (w : world) (i : nat) :
  let t := fst (run (writeToGoogleSheets Rev1 data) w i) in
  let get := sheets_values_get "Sheet1!A1:E1" in
  let update := sheets_values_update "Sheet1!A1:E1"
                  [["Name"; "Email"; "Phone"; "Message"; "Timestamp"]] in
  let append := sheets_values_append "Sheet1!A:E"
                  [Cell (Body.name data); Cell (Body.email data);
                   Cell (Body.phone data); Cell (Body.message data); Now] in
  calls t =
  match w i with
  | Fulfilled (response (Some (_ :: _))) => [get; append]
  | Fulfilled (response _) =>
      if is_fulfilled (w (S i)) then [get; update; append] else [get; update]
  | Fulfilled undefined | Rejected _ => [get]
  end.
Proof.
  unfold writeToGoogleSheets, append_row. cbn.
  destruct (w i) as [[| [[| row rows] |]] | e]; cbn; try reflexivity.
  all: destruct (w (S i)) as [v | e]; cbn; try reflexivity.
  all: destruct (w (S (S i))) as [v' | e']; reflexivity.
Qed.

(** X6. [writeToGoogleSheets] swallows nothing.  In both revisions a
    rejected call is the last call made and its error is what the helper
    throws; the helper resolves exactly when it has printed "Data written
    to Google Sheets", which it does right after a fulfilled append; and it
    prints "Error writing to Google Sheets:" for a rejected append only,
    not for a rejected header read or write. *)
Theorem writeToGoogleSheets_rethrows
  (rev : revision) (data : Body.t) (w : world) (i : nat) :
  let t := fst (run (writeToGoogleSheets rev data) w i) in
  let r := snd (run (writeToGoogleSheets rev data) w i) in
  (forall c e, In (Called c (Rejected e)) t ->
               r = Threw e /\
               (exists cs, calls t = cs ++ [c]) /\
               error_lines t =
               match c with
               | sheets_values_append _ _ => [text_with "Error writing to Google Sheets:" e]
               | _ => []
               end) /\
  (r = Resolved tt <->
   exists t0 range row v,
     t = t0 ++ [Called (sheets_values_append range row) (Fulfilled v);
                Out (console_log (text "Data written to Google Sheets"))]).
Proof.
  unfold writeToGoogleSheets, append_row.
  destruct rev; cbn; settle_replies w.
  all: split;
    [intros ? ? Hin; find_rejection Hin; inversion Hin; subst;
     (split; [reflexivity | split; [| reflexivity]]);
     match goal with
     | |- exists cs, ?l = _ => exists (removelast l); reflexivity
     end |].
  all: split;
    [intros Hr;
     try discriminate Hr;
     match goal with
     | |- exists t0 range row v, ?l = _ =>
         exists (removelast (removelast l)); do 3 eexists; reflexivity
     end |].
  all: intros (t0 & ? & ? & ? & Ht0); try reflexivity.
  all: exfalso; apply (f_equal (@rev event)) in Ht0;
    rewrite rev_app_distr in Ht0; cbn in Ht0; discriminate Ht0.
Qed.

Lemma writeToGoogleSheets_rethrows_witness :
  snd (run (writeToGoogleSheets Rev2 a_submission) append_fails 1)
  = Threw (Error "Quota exceeded") /\
  error_lines (fst (run (writeToGoogleSheets Rev2 a_submission) append_fails 1))
  = [text_with "Error writing to Google Sheets:" (Error "Quota exceeded")].
Proof.
  destruct (writeToGoogleSheets_rethrows Rev2 a_submission append_fails 1) as [Hrejected _].
  destruct (Hrejected
              (sheets_values_append "Sheet1!A:E"
                 [Cell "Amal"; Cell "amal@example.com"; Cell "+971500000000";
                  Cell "Please call me back"; Now])
              (Error "Quota exceeded")) as (Hr & _ & Hlines).
  - cbn. left. reflexivity.
  - split; [exact Hr | exact Hlines].
Defined.

(** ** The route *)

(** X7. Every submission is answered exactly once, and truthfully as to
    the message: either with status 200, and then the document is
    persisted, the three steps were taken and the message
    "New message from name (phone, email): message" went to
    [number@c.us]; or with status 500, [success: false] and the message of
    an error, and then no message was sent. *)
Theorem send_whatsapp_answers_once
  (rev : revision) (number : string) (body : Body.t) (w : world) :
  let t := trace_of (send_whatsapp rev number body) w in
  (responses t = [(200%Z, success_true "Message sent successfully!")] /\
   persisted t = [body] /\
   steps t = [database_save; spreadsheet_append; whatsapp_send] /\
   sent t = [((number ++ "@c.us")%string,
              ("New message from " ++ Body.name body ++ " (" ++ Body.phone body ++ ", "
                 ++ Body.email body ++ "): " ++ Body.message body)%string)])
  \/
  (exists e,
      responses t =
        [(500%Z, success_false (message e)
                   (match rev with Rev1 => None | Rev2 => Some e end))] /\
      sent t = []).
Proof.
  unfold trace_of, send_whatsapp, writeToGoogleSheets, append_row.
  destruct rev; cbn; settle_replies w.
  all: first [ left; repeat split; reflexivity
             | right; eexists; split; reflexivity
             | right; exists type_error; split; reflexivity ].
Qed.

(** X8. Whatever step fails, the route reports it as an error sending the
    WhatsApp message: when a call is rejected the lines written to the
    error console are "Error sending WhatsApp message:" with that error,
    preceded by "Error writing to Google Sheets:" with the same error when
    the rejected call is the append; a rejected save or header access is
    reported under the WhatsApp label alone. *)
Theorem send_whatsapp_error_lines
  (rev : revision) (number : string) (body : Body.t) (w : world) (c : call) (e : error) :
  In (Called c (Rejected e)) (trace_of (send_whatsapp rev number body) w) ->
  error_lines (trace_of (send_whatsapp rev number body) w) =
  match c with
  | sheets_values_append _ _ =>
      [text_with "Error writing to Google Sheets:" e;
       text_with "Error sending WhatsApp message:" e]
  | _ => [text_with "Error sending WhatsApp message:" e]
  end.
Proof.
  unfold trace_of, send_whatsapp, writeToGoogleSheets, append_row.
  destruct rev; cbn; settle_replies w.
  all: intros Hin; find_rejection Hin.
  all: inversion Hin; subst; reflexivity.
Qed.

Lemma send_whatsapp_error_lines_witness :
  error_lines (trace_of (send_whatsapp Rev2 "971500000000" a_submission) append_fails) =
  [text_with "Error writing to Google Sheets:" (Error "Quota exceeded");
   text_with "Error sending WhatsApp message:" (Error "Quota exceeded")].
Proof.
  apply (send_whatsapp_error_lines Rev2 "971500000000" a_submission append_fails
           (sheets_values_append "Sheet1!A:E"
              [Cell "Amal"; Cell "amal@example.com"; Cell "+971500000000";
               Cell "Please call me back"; Now])
           (Error "Quota exceeded")).
  cbn. right. left. reflexivity.
Defined.

(** ** The server of the second revision, continued *)

Lemma exits_within_bind {A B : Type} (P : Z -> Prop) (p : Proc A) (f : A -> Proc B) :
  exits_within P p -> (forall a, exits_within P (f a)) -> exits_within P (bind p f).
Proof.
  intros Hp Hf. induction p as [a | e | code | o k IH | c k IH | ms k IH |]; cbn in *; auto.
Qed.

Lemma exits_within_try_catch {A : Type} (P : Z -> Prop) (p : Proc A) (h : error -> Proc A) :
  exits_within P p -> (forall e, exits_within P (h e)) -> exits_within P (try_catch p h).
Proof.
  intros Hp Hh. induction p as [a | e | code | o k IH | c k IH | ms k IH |]; cbn in *; auto.
Qed.

Lemma exits_within_await (P : Z -> Prop) (c : call) : exits_within P (await c).
Proof. intros [v | e]; exact I. Qed.

Lemma exits_within_advance {A : Type} (P : Z -> Prop) (p : Proc A) :
  exits_within P p -> exits_within P (snd (advance p)).
Proof.
  induction p as [a | e | code | o k IH | c k IH | ms k IH |]; cbn; auto.
  intros Hk. specialize (IH Hk). now destruct (advance k).
Qed.

Lemma never_exits_exit_code {A : Type} (p : Proc A) : never_exits p -> exit_code p = None.
Proof. destruct p; cbn; intros H; try reflexivity. contradiction H. Qed.

(** The route has no [process.exit]. *)
Lemma send_whatsapp_never_exits (rev : revision) (number : string) (body : Body.t) :
  never_exits (send_whatsapp rev number body).
Proof.
  assert (Happend : never_exits (append_row body)).
  { apply exits_within_try_catch; [| intros e; exact I].
    apply exits_within_bind; [apply exits_within_await | intros _; exact I]. }
  apply exits_within_try_catch; [| intros e; exact I].
  apply exits_within_bind; [apply exits_within_await | intros _].
  apply exits_within_bind.
  - destruct rev; [| exact Happend].
    apply exits_within_bind; [apply exits_within_await |].
    intros [| [[| row rows] |]]; try exact I; try exact Happend.
    all: apply exits_within_bind; [apply exits_within_await | intros _; exact Happend].
  - intros _. cbv zeta.
    apply exits_within_bind; [apply exits_within_await | intros _; exact I].
Qed.

Lemma Forall_replace_nth {A : Type} (P : A -> Prop) (n : nat) (x : A) (l : list A) :
  Forall P l -> P x -> Forall P (replace_nth n x l).
Proof.
  intros Hl Hx. revert n.
  induction Hl as [| y l Hy Hl IH]; intros [| n]; cbn; constructor; auto.
Qed.

(** An arrival that is not for the route is handled the same in two
    states that agree on the supervisor and on whether the process runs,
    and leaves the handlers alone. *)
Lemma deliver_other_arrival (number : string) (s s' : server) (a : arrival) :
  is_route_arrival a = false ->
  supervisor s = supervisor s' -> exited s = exited s' ->
  supervisor (deliver number s a) = supervisor (deliver number s' a) /\
  exited (deliver number s a) = exited (deliver number s' a) /\
  handlers (deliver number s a) = handlers s.
Proof.
  intros Ha Hsup Hexit. unfold deliver.
  destruct (exited s) as [code |] eqn:Hrunning; rewrite <- Hexit;
    [repeat split; congruence |].
  destruct a as [r | | body | n r | qr | | msg | e]; try discriminate Ha;
    try (cbn; repeat split; congruence).
  - rewrite <- Hsup.
    destruct (supervisor s) as [| | | | c k | |] eqn:Hs;
      try (repeat split; congruence).
    unfold resume_supervisor. destruct (advance (k r)) as [os p']. now repeat split.
  - rewrite <- Hsup.
    destruct (supervisor s) as [| | | | | ms k |] eqn:Hs;
      try (repeat split; congruence).
    unfold resume_supervisor. destruct (advance k) as [os p']. now repeat split.
Qed.

(** An arrival for the route leaves the supervisor and the process as
    they are. *)
Lemma deliver_route_arrival (number : string) (s : server) (a : arrival) :
  is_route_arrival a = true ->
  Forall never_exits (handlers s) ->
  supervisor (deliver number s a) = supervisor s /\
  exited (deliver number s a) = exited s /\
  Forall never_exits (handlers (deliver number s a)).
Proof.
  intros Ha Hhandlers. unfold deliver.
  destruct (exited s) as [code |] eqn:Hrunning; [now repeat split |].
  destruct a as [r | | body | n r | qr | | msg | e]; try discriminate Ha.
  - destruct (listening s); [| now repeat split].
    unfold spawn_handler.
    pose proof (exits_within_advance _ _ (send_whatsapp_never_exits Rev2 number body)) as Hk.
    destruct (advance (send_whatsapp Rev2 number body)) as [os p']. cbn in *.
    repeat split.
    + now rewrite never_exits_exit_code.
    + apply Forall_app. split; [exact Hhandlers | now constructor].
  - destruct (nth_error (handlers s) n) as [[| | | | c k | |] |] eqn:Hn; try now repeat split.
    unfold resume_handler.
    assert (Hk : never_exits (k r)).
    { apply nth_error_In in Hn. rewrite Forall_forall in Hhandlers.
      apply (Hhandlers _ Hn r). }
    apply (exits_within_advance _ (k r)) in Hk.
    destruct (advance (k r)) as [os p']. cbn in *.
    repeat split.
    + now rewrite never_exits_exit_code.
    + now apply Forall_replace_nth.
Qed.

Lemma deliver_all_without_route (number : string) (l : list arrival) (s s' : server) :
  supervisor s = supervisor s' -> exited s = exited s' ->
  Forall never_exits (handlers s) ->
  supervisor (deliver_all number s l)
  = supervisor (deliver_all number s' (filter (fun a => negb (is_route_arrival a)) l)) /\
  exited (deliver_all number s l)
  = exited (deliver_all number s' (filter (fun a => negb (is_route_arrival a)) l)).
Proof.
  unfold deliver_all. revert s s'.
  induction l as [| a l IH]; intros s s' Hsup Hexit Hhandlers; [now split |].
  cbn [filter fold_left]. destruct (is_route_arrival a) eqn:Ha; cbn [negb].
  - destruct (deliver_route_arrival number s a Ha Hhandlers) as (H1 & H2 & H3).
    apply IH; [now rewrite H1 | now rewrite H2 | exact H3].
  - destruct (deliver_other_arrival number s s' a Ha Hsup Hexit) as (H1 & H2 & H3).
    cbn [fold_left]. apply IH; [exact H1 | exact H2 | now rewrite H3].
Qed.

(** X11. Submissions do not disturb the supervisor.  However the server
    started, and whatever requests and handler settlements the event loop
    interleaves with the other events, the supervisor ends up where it
    would without them, and the process has exited exactly if it would
    have without them. *)
Theorem submissions_leave_supervisor_alone
  (number : string) (env : environment) (l : list arrival) :
  let s := deliver_all number (start env) l in
  let s' := deliver_all number (start env)
              (filter (fun a => negb (is_route_arrival a)) l) in
  supervisor s = supervisor s' /\ exited s = exited s'.
Proof.
  apply deliver_all_without_route; [reflexivity | reflexivity |].
  destruct env as [port [e | e |] [e' |]]; constructor.
Qed.
